(** * ibase-chatbot: the PDF chunking core and the upload handler

    A shallow embedding of [src/pdf_processor.py] (class [PDFProcessor]) and
    of the [upload_pdf] handler of [src/app.py], with the properties of the
    specification stated over it.

    Conventions.
    - A Python [int] is a [Z]; [len] of a list or a string is a [Z].
    - A Python [str] is a [string]; its characters are the code points
      below 256.
    - A call that may raise returns a [pyresult]: [Ok v] or [Raise e].
    - The PDF libraries (PyMuPDF's [fitz], [pdfplumber]) are not part of the
      repository: what they answer for a path is a variable of the section
      that embeds the extraction methods, and every [open] call on them is
      recorded as an [event]. *)

From Stdlib Require Import ZArith List String Ascii Bool Lia.
Import ListNotations.

Local Open Scope string_scope.
Local Open Scope list_scope.
Local Open Scope Z_scope.

Set Implicit Arguments.

(** ** Python values and builtins *)

Inductive pyresult (E A : Type) : Type :=
| Ok (value : A)
| Raise (error : E).

Arguments Ok {E A} value.
Arguments Raise {E A} error.

Definition bind {E A B : Type} (m : pyresult E A) (k : A -> pyresult E B)
  : pyresult E B :=
  match m with
  | Ok a => k a
  | Raise e => Raise e
  end.

Notation "x <- m ;; k" := (bind m (fun x => k))
  (at level 61, m at next level, right associativity).

Definition len {A : Type} (l : list A) : Z := Z.of_nat (List.length l).

Definition str_len (s : string) : Z := Z.of_nat (String.length s).

(** [str.isspace] on one character with a code point below 256:
    tab, line feed, vertical tab, form feed, carriage return, the four
    separators 0x1c-0x1f, space, NEL (0x85) and the no-break space (0xa0). *)
Definition isspace (c : ascii) : bool :=
  let n := N_of_ascii c in
  (((9 <=? n) && (n <=? 13)) || ((28 <=? n) && (n <=? 32))
   || (n =? 133) || (n =? 160))%N.

(** [text.split()]: the maximal runs of non-whitespace characters, in order.
    [cur] is the word being read, reversed. *)
Fixpoint split_from (cur : list ascii) (s : string) : list string :=
  match s with
  | EmptyString =>
      match cur with
      | [] => []
      | _ => [string_of_list_ascii (rev cur)]
      end
  | String c rest =>
      if isspace c then
        match cur with
        | [] => split_from [] rest
        | _ => string_of_list_ascii (rev cur) :: split_from [] rest
        end
      else split_from (c :: cur) rest
  end.

Definition split (text : string) : list string := split_from [] text.

(** [sep.join(words)]. *)
Definition join (sep : string) (words : list string) : string :=
  String.concat sep words.

(** The bound of a slice as Python clamps it: a negative bound counts from
    the end, and every bound is brought into [0 .. len]. *)
Definition clamp (n k : Z) : Z :=
  if k <? 0 then Z.max 0 (k + n) else Z.min k n.

(** [l[i:j]]: never raises; empty when the clamped bounds cross. *)
Definition pyslice {A : Type} (l : list A) (i j : Z) : list A :=
  let lo := clamp (len l) i in
  let hi := clamp (len l) j in
  firstn (Z.to_nat (hi - lo)) (skipn (Z.to_nat lo) l).

(** The number of elements of [range(lo, hi, step)], for [step <> 0]. *)
Definition range_length (lo hi step : Z) : nat :=
  if 0 <? step then
    if lo <? hi then Z.to_nat (1 + (hi - 1 - lo) / step) else 0%nat
  else
    if hi <? lo then Z.to_nat (1 + (lo - 1 - hi) / (- step)) else 0%nat.

Definition range_items (lo step : Z) (first count : nat) : list Z :=
  map (fun k => lo + Z.of_nat k * step) (seq first count).

(** [s.endswith(suffix)]. *)
Definition endswith (s suffix : string) : bool :=
  let n := String.length s in
  let m := String.length suffix in
  ((m <=? n)%nat && String.eqb (substring (n - m) m s) suffix)%bool.

(** [posixpath.basename]: what follows the last slash. *)
Fixpoint basename_from (cur : list ascii) (p : string) : string :=
  match p with
  | EmptyString => string_of_list_ascii (rev cur)
  | String c rest =>
      if Ascii.eqb c "/"%char then basename_from [] rest
      else basename_from (c :: cur) rest
  end.

Definition basename (p : string) : string := basename_from [] p.

(** ** src/pdf_processor.py *)

Module pdf_processor.

(** The exceptions that can cross this module. [Foreign] is whatever a PDF
    library raised: [is_exception] tells whether its class derives from
    [Exception] (a [KeyboardInterrupt] does not), [msg] is its [str]. *)
Inductive exn : Type :=
| Exception (msg : string)
| ValueError (msg : string)
| Foreign (is_exception : bool) (msg : string).

Definition is_Exception (e : exn) : bool :=
  match e with
  | Exception _ => true
  | ValueError _ => true
  | Foreign b _ => b
  end.

Definition str (e : exn) : string :=
  match e with
  | Exception m => m
  | ValueError m => m
  | Foreign _ m => m
  end.

Definition result := pyresult exn.

(** [range(start, stop, step)], which refuses a zero step. *)
Definition py_range (start stop step : Z) : result (list Z) :=
  if step =? 0 then Raise (ValueError "range() arg 3 must not be zero")
  else Ok (range_items start step 0 (range_length start stop step)).

Record PDFProcessor : Type := {
  chunk_size : Z;
  chunk_overlap : Z
}.

(** [PDFProcessor.__init__]: stores its two arguments, checks nothing. *)
Definition __init__ (chunk_size chunk_overlap : Z) : result PDFProcessor :=
  Ok {| chunk_size := chunk_size; chunk_overlap := chunk_overlap |}.

(** The dictionary appended for each chunk. *)
Record Chunk : Type := {
  text : string;
  chunk_index : Z;
  start_char : Z;
  word_count : Z
}.

(** One turn of the [for] loop of [chunk_text]. *)
Definition chunk_step (self : PDFProcessor) (words : list string)
  (chunks : list Chunk) (i : Z) : list Chunk :=
  let chunk_words := pyslice words i (i + chunk_size self) in
  let chunk_text := join " " chunk_words in
  chunks ++ [{| text := chunk_text;
                chunk_index := len chunks;
                start_char := i;
                word_count := len chunk_words |}].

Definition chunk_text (self : PDFProcessor) (text : string)
  : result (list Chunk) :=
  let words := split text in
  r <- py_range 0 (len words) (chunk_size self - chunk_overlap self) ;;
  Ok (fold_left (chunk_step self words) r []).

(** The dictionary returned by [process_pdf]. *)
Record ProcessingResult : Type := {
  filename : string;
  full_text : string;
  chunks : list Chunk;
  total_chunks : Z;
  total_chars : Z
}.

(** A call into a PDF library that opens the file. *)
Inductive event : Type :=
| FitzOpen (path : string)
| PlumberOpen (path : string).

Definition is_plumber (e : event) : bool :=
  match e with
  | PlumberOpen _ => true
  | FitzOpen _ => false
  end.

(** How often the trace enters the fallback library. *)
Definition fallback_attempts (tr : list event) : nat :=
  List.length (filter is_plumber tr).

(** What [fitz.open] hands back: the outcome of [get_text] on each page, in
    page order, and the outcome of [close]. *)
Record FitzDoc : Type := {
  fz_pages : list (result string);
  fz_close : result unit
}.

(** What [pdfplumber.open] hands back: the outcome of [extract_text] on each
    page ([None] for a page without text) and the outcome of leaving the
    [with] block. *)
Record PlumberPdf : Type := {
  pl_pages : list (result (option string));
  pl_exit : result unit
}.

(** [except Exception as e: raise Exception(prefix + str(e))]: an error that
    does not derive from [Exception] passes through untouched. *)
Definition rewrap {A : Type} (prefix : string) (body : result A) : result A :=
  match body with
  | Ok a => Ok a
  | Raise e =>
      if is_Exception e then Raise (Exception (prefix ++ str e))
      else Raise e
  end.

(** [for page in doc: text += page.get_text()]. *)
Fixpoint read_fitz_pages (pages : list (result string)) (text : string)
  : result string :=
  match pages with
  | [] => Ok text
  | Ok t :: rest => read_fitz_pages rest (text ++ t)
  | Raise e :: _ => Raise e
  end.

(** [for page in pdf.pages: text += page.extract_text() or ""]. *)
Fixpoint read_plumber_pages (pages : list (result (option string)))
  (text : string) : result string :=
  match pages with
  | [] => Ok text
  | Ok (Some t) :: rest => read_plumber_pages rest (text ++ t)
  | Ok None :: rest => read_plumber_pages rest (text ++ "")
  | Raise e :: _ => Raise e
  end.

(** Leaving a [with] block: the exit handler runs on both paths, and an error
    of its own replaces the outcome of the body. *)
Definition with_exit {A : Type} (exit : result unit) (body : result A)
  : result A :=
  match exit with
  | Ok _ => body
  | Raise e => Raise e
  end.

Section Extraction.

Variable fitz_open : string -> result FitzDoc.
Variable pdfplumber_open : string -> result PlumberPdf.

Definition extract_text_pymupdf (self : PDFProcessor) (pdf_path : string)
  : list event * result string :=
  ([FitzOpen pdf_path],
   rewrap "Error extracting text with PyMuPDF: "
     (doc <- fitz_open pdf_path ;;
      text <- read_fitz_pages (fz_pages doc) "" ;;
      _ <- fz_close doc ;;
      Ok text)).

Definition extract_text_pdfplumber (self : PDFProcessor) (pdf_path : string)
  : list event * result string :=
  ([PlumberOpen pdf_path],
   rewrap "Error extracting text with pdfplumber: "
     (pdf <- pdfplumber_open pdf_path ;;
      with_exit (pl_exit pdf) (read_plumber_pages (pl_pages pdf) ""))).

(** The [try: ... except: ...] that opens [process_pdf]: the bare [except]
    catches every error of the primary, whatever its class. *)
Definition extract (self : PDFProcessor) (pdf_path : string)
  : list event * result string :=
  let (tr1, r1) := extract_text_pymupdf self pdf_path in
  match r1 with
  | Ok text => (tr1, Ok text)
  | Raise _ =>
      let (tr2, r2) := extract_text_pdfplumber self pdf_path in
      (tr1 ++ tr2, r2)
  end.

Definition process_pdf (self : PDFProcessor) (pdf_path : string)
  : list event * result ProcessingResult :=
  let (tr, r) := extract self pdf_path in
  (tr,
   text <- r ;;
   chunks <- chunk_text self text ;;
   Ok {| filename := basename pdf_path;
         full_text := text;
         chunks := chunks;
         total_chunks := len chunks;
         total_chars := str_len text |}).

End Extraction.

End pdf_processor.

(** ** src/app.py: the upload handler *)

Module app.

(** The two errors the body of [upload_pdf] can raise; both derive from
    [Exception]. *)
Inductive exn : Type :=
| HTTPException (status_code : Z) (detail : string)
| AttributeError (msg : string).

Definition result := pyresult exn.

(** The part of FastAPI's [UploadFile] the handler reads; the framework
    leaves [filename] at [None] when the part carries no file name. *)
Record UploadFile : Type := {
  filename : option string
}.

(** The dictionary returned on success. *)
Record UploadResponse : Type := {
  message : string;
  resp_filename : string;
  user_id : string;
  status : string
}.

Definition status_code_of {A : Type} (r : result A) : option Z :=
  match r with
  | Raise (HTTPException code _) => Some code
  | _ => None
  end.

Section Upload.

(** [str] of an [HTTPException]: defined by the installed Starlette, not by
    this repository. *)
Variable HTTPException_str : Z -> string -> string.

Definition str (e : exn) : string :=
  match e with
  | HTTPException code detail => HTTPException_str code detail
  | AttributeError m => m
  end.

(** The statements inside the [try]. *)
Definition upload_pdf_try (file : UploadFile) (user_id : string)
  : result UploadResponse :=
  match filename file with
  | None =>
      Raise (AttributeError "'NoneType' object has no attribute 'endswith'")
  | Some name =>
      if negb (endswith name ".pdf") then
        Raise (HTTPException 400 "Only PDF files allowed")
      else
        Ok {| message := "PDF uploaded successfully";
              resp_filename := name;
              user_id := user_id;
              status := "processed" |}
  end.

(** [except Exception as e: raise HTTPException(status_code=500, ...)]. *)
Definition upload_pdf (file : UploadFile) (user_id : string)
  : result UploadResponse :=
  match upload_pdf_try file user_id with
  | Ok response => Ok response
  | Raise e => Raise (HTTPException 500 (str e))
  end.

End Upload.

End app.

(** ** Vocabulary of the specification *)

Module spec.

Import pdf_processor.

(** The stride of the chunking loop: [chunk_size - chunk_overlap]. *)
Definition stride (self : PDFProcessor) : Z :=
  chunk_size self - chunk_overlap self.

(** The number of whitespace-delimited words of a text. *)
Definition word_total (text : string) : Z := len (split text).

(** The chunk the loop appends in its turn number [k] (counted from 0). *)
Definition chunk_at (self : PDFProcessor) (words : list string) (k : nat)
  : Chunk :=
  let i := Z.of_nat k * stride self in
  {| text := join " " (pyslice words i (i + chunk_size self));
     chunk_index := Z.of_nat k;
     start_char := i;
     word_count := len (pyslice words i (i + chunk_size self)) |}.

(** The number of turns of the loop. *)
Definition n_chunks (self : PDFProcessor) (text : string) : nat :=
  range_length 0 (word_total text) (stride self).

(** Exactly one chunk, which holds every word of the text. *)
Definition one_chunk_all_words (self : PDFProcessor) (text : string) : Prop :=
  exists c : Chunk,
    chunk_text self text = Ok [c]
    /\ pdf_processor.text c = join " " (split text)
    /\ word_count c = word_total text.

(** The chunk emitted in turn [k] starts [k] steps after word 0. *)
Definition offsets_by_stride (step : Z) (cs : list Chunk) : Prop :=
  forall (k : nat) (c : Chunk),
    nth_error cs k = Some c -> start_char c = Z.of_nat k * step.

(** Consecutive chunks start exactly one step apart. *)
Definition offsets_step_apart (step : Z) (cs : list Chunk) : Prop :=
  forall (k : nat) (c c' : Chunk),
    nth_error cs k = Some c -> nth_error cs (S k) = Some c' ->
    start_char c' = start_char c + step /\ start_char c < start_char c'.

Definition final_chunk (cs : list Chunk) : option Chunk :=
  match rev cs with
  | c :: _ => Some c
  | [] => None
  end.

(** The last chunk ends at or after the last word of the text. *)
Definition final_chunk_covers (text : string) (cs : list Chunk) : Prop :=
  forall c : Chunk,
    final_chunk cs = Some c -> word_total text <= start_char c + word_count c.

(** The chunk emitted in turn [k] carries [chunk_index = k]. *)
Definition indices_sequential (cs : list Chunk) : Prop :=
  forall (k : nat) (c : Chunk),
    nth_error cs k = Some c -> chunk_index c = Z.of_nat k.

(** The invariant of the record returned by [process_pdf]. *)
Definition result_invariant (r : ProcessingResult) : Prop :=
  total_chunks r = len (chunks r)
  /\ total_chars r = str_len (full_text r)
  /\ indices_sequential (chunks r).

(** The record for a document without any text. *)
Definition empty_result (pdf_path : string) : ProcessingResult :=
  {| filename := basename pdf_path;
     full_text := "";
     chunks := [];
     total_chunks := 0;
     total_chars := 0 |}.

(** *** Sample libraries and inputs *)

(** A two-page document that both libraries read. *)
Definition fitz_two_pages (_ : string) : result FitzDoc :=
  Ok {| fz_pages := [Ok "a b c d "; Ok "e f g h"]; fz_close := Ok tt |}.

Definition plumber_two_pages (_ : string) : result PlumberPdf :=
  Ok {| pl_pages := [Ok (Some "a b c d "); Ok None; Ok (Some "e f g h")];
        pl_exit := Ok tt |}.

(** A document whose pages carry no text. *)
Definition fitz_blank (_ : string) : result FitzDoc :=
  Ok {| fz_pages := [Ok ""; Ok ""]; fz_close := Ok tt |}.

(** A short document of three words. *)
Definition fitz_three_words (_ : string) : result FitzDoc :=
  Ok {| fz_pages := [Ok "a b c"]; fz_close := Ok tt |}.

(** Libraries that cannot open the file. *)
Definition fitz_broken (_ : string) : result FitzDoc :=
  Raise (Foreign true "cannot open broken document").

Definition plumber_broken (_ : string) : result PlumberPdf :=
  Raise (Foreign true "No /Root object! - Is this really a PDF?").

Definition cfg (size overlap : Z) : PDFProcessor :=
  {| chunk_size := size; chunk_overlap := overlap |}.

End spec.

(** ** Vocabulary of the further properties *)

Module props.

Import pdf_processor spec.

Definition nonspace (c : ascii) : bool := negb (isspace c).

(** A word as [text.split()] yields it: not empty, no whitespace inside. *)
Definition is_word (w : string) : bool :=
  match w with
  | EmptyString => false
  | String _ _ => forallb nonspace (list_ascii_of_string w)
  end.

(** A text made of whitespace only (the empty text included). *)
Definition all_space (s : string) : bool :=
  forallb isspace (list_ascii_of_string s).

(** The words that the chunk's slice takes from the text. *)
Definition chunk_words (self : PDFProcessor) (text : string) (c : Chunk)
  : list string :=
  pyslice (split text) (start_char c) (start_char c + chunk_size self).

(** The word with index [j] of the text lies inside the chunk. *)
Definition covers (c : Chunk) (j : Z) : Prop :=
  start_char c <= j < start_char c + word_count c.

(** [page.extract_text() or ""]. *)
Definition page_text (o : option string) : string :=
  match o with
  | Some t => t
  | None => ""
  end.

Definition pymupdf_prefix : string := "Error extracting text with PyMuPDF: ".


Definition has_slash (s : string) : bool :=
  existsb (Ascii.eqb "/"%char) (list_ascii_of_string s).

(** *** Further sample libraries *)

(** A document whose second page cannot be read. *)
Definition fitz_bad_page (_ : string) : result FitzDoc :=
  Ok {| fz_pages := [Ok "a b "; Raise (Foreign true "bad xref"); Ok "c"];
        fz_close := Ok tt |}.

(** A document of blanks and line breaks only. *)
Definition fitz_whitespace (_ : string) : result FitzDoc :=
  Ok {| fz_pages := [Ok "  "; Ok (String "010"%char " ")];
        fz_close := Ok tt |}.

(** An interrupt that arrives while the fallback library runs. *)
Definition plumber_interrupted (_ : string) : result PlumberPdf :=
  Raise (Foreign false "KeyboardInterrupt").

End props.

(** ** Facts about the builtins *)

Lemma len_nonneg {A : Type} (l : list A) : 0 <= len l.
Proof. unfold len. lia. Qed.

Lemma len_app {A : Type} (l1 l2 : list A) : len (l1 ++ l2) = len l1 + len l2.
Proof. unfold len. rewrite length_app. lia. Qed.

Lemma clamp_nonneg (n k : Z) : 0 <= n -> 0 <= k -> clamp n k = Z.min k n.
Proof.
  intros Hn Hk. unfold clamp.
  destruct (k <? 0) eqn:E; [apply Z.ltb_lt in E; lia | reflexivity].
Qed.

Lemma clamp_range (n k : Z) : 0 <= n -> 0 <= clamp n k <= n.
Proof.
  intros Hn. unfold clamp. destruct (k <? 0) eqn:E.
  - apply Z.ltb_lt in E. lia.
  - apply Z.ltb_ge in E. lia.
Qed.

(** A slice never has more elements than lie between its clamped bounds. *)
Lemma len_pyslice {A : Type} (l : list A) (i j : Z) :
  len (pyslice l i j) = Z.max 0 (clamp (len l) j - clamp (len l) i).
Proof.
  unfold pyslice.
  pose proof (clamp_range i (len_nonneg l)) as Hi.
  pose proof (clamp_range j (len_nonneg l)) as Hj.
  unfold len in *. rewrite length_firstn, length_skipn. lia.
Qed.

(** With both bounds non-negative no clamping from the end takes place. *)
Lemma len_pyslice_nonneg {A : Type} (l : list A) (i j : Z) :
  0 <= i -> 0 <= j ->
  len (pyslice l i j) = Z.max 0 (Z.min j (len l) - Z.min i (len l)).
Proof.
  intros Hi Hj. rewrite len_pyslice.
  rewrite !clamp_nonneg by (auto using len_nonneg). reflexivity.
Qed.

(** A slice from 0 up to a bound at or past the end is the whole list. *)
Lemma pyslice_whole {A : Type} (l : list A) (j : Z) :
  len l <= j -> pyslice l 0 j = l.
Proof.
  intros Hj. unfold pyslice.
  pose proof (len_nonneg l) as Hn.
  rewrite !clamp_nonneg by lia.
  replace (Z.min 0 (len l)) with 0 by lia.
  replace (Z.min j (len l)) with (len l) by lia.
  simpl. apply firstn_all2. unfold len. lia.
Qed.

(** The slice [l[i:j]] starts right after the first [i] elements. *)
Lemma pyslice_skips {A : Type} (l : list A) (i j : Z) :
  0 <= i <= len l ->
  exists k : nat, pyslice l i j = firstn k (skipn (Z.to_nat i) l)
                  /\ len (firstn (Z.to_nat i) l) = i.
Proof.
  intros Hi. unfold pyslice.
  rewrite (clamp_nonneg (k := i)) by lia.
  replace (Z.min i (len l)) with i by lia.
  eexists. split; [reflexivity|].
  unfold len in *. rewrite length_firstn. lia.
Qed.

Lemma range_length_pos (hi step : Z) :
  0 < step -> 0 < hi ->
  range_length 0 hi step = Z.to_nat (1 + (hi - 1) / step).
Proof.
  intros Hs Hh. unfold range_length.
  destruct (0 <? step) eqn:E1; [|apply Z.ltb_ge in E1; lia].
  destruct (0 <? hi) eqn:E2; [|apply Z.ltb_ge in E2; lia].
  now rewrite Z.sub_0_r.
Qed.

Lemma range_length_empty (hi step : Z) :
  hi <= 0 -> 0 < step -> range_length 0 hi step = 0%nat.
Proof.
  intros Hh Hs. unfold range_length.
  destruct (0 <? step) eqn:E1; [|apply Z.ltb_ge in E1; lia].
  destruct (0 <? hi) eqn:E2; [apply Z.ltb_lt in E2; lia | reflexivity].
Qed.

(** A descending range from 0 towards a non-negative stop is empty. *)
Lemma range_length_backwards (hi step : Z) :
  0 <= hi -> step < 0 -> range_length 0 hi step = 0%nat.
Proof.
  intros Hh Hs. unfold range_length.
  destruct (0 <? step) eqn:E1; [apply Z.ltb_lt in E1; lia|].
  destruct (hi <? 0) eqn:E2; [apply Z.ltb_lt in E2; lia | reflexivity].
Qed.

(** Every start index of an ascending range lies below the stop, and the
    step after the last one reaches it. *)
Lemma range_length_bounds (hi step : Z) :
  0 < step -> 0 < hi ->
  let n := Z.of_nat (range_length 0 hi step) in
  1 <= n /\ (n - 1) * step < hi /\ hi <= n * step.
Proof.
  intros Hs Hh n. subst n. rewrite range_length_pos by assumption.
  pose proof (Z.div_pos (hi - 1) step ltac:(lia) Hs) as Hq.
  rewrite Z2Nat.id by lia.
  pose proof (Z.mul_div_le (hi - 1) step Hs) as Hle.
  pose proof (Z.mul_succ_div_gt (hi - 1) step Hs) as Hgt.
  split; [lia|]. split; nia.
Qed.

(** ** The chunking loop in closed form *)

Import pdf_processor spec.

Lemma length_chunk_step (self : PDFProcessor) (words : list string)
  (acc : list Chunk) (i : Z) :
  List.length (chunk_step self words acc i) = S (List.length acc).
Proof. unfold chunk_step. rewrite length_app. simpl. lia. Qed.

(** Running the loop over the start indices number [first], [first + 1], ...
    from a list that already holds [first] chunks appends the chunks of those
    turns. *)
Lemma loop_closed (self : PDFProcessor) (words : list string) :
  forall (count first : nat) (acc : list Chunk),
    List.length acc = first ->
    fold_left (chunk_step self words)
              (range_items 0 (stride self) first count) acc
    = acc ++ map (chunk_at self words) (seq first count).
Proof.
  induction count as [|count IH]; intros first acc Hacc.
  - simpl. now rewrite app_nil_r.
  - unfold range_items in *. cbn [seq map fold_left].
    rewrite IH by (rewrite length_chunk_step; congruence).
    unfold chunk_step. rewrite <- app_assoc. cbn [app].
    do 2 f_equal. unfold chunk_at, len. subst first.
    rewrite Z.add_0_l. reflexivity.
Qed.

Lemma chunk_text_zero_stride (self : PDFProcessor) (text : string) :
  stride self = 0 ->
  chunk_text self text = Raise (ValueError "range() arg 3 must not be zero").
Proof.
  intros H. unfold chunk_text, py_range. fold (stride self). rewrite H.
  reflexivity.
Qed.

Lemma chunk_text_closed (self : PDFProcessor) (text : string) :
  stride self <> 0 ->
  chunk_text self text
  = Ok (map (chunk_at self (split text)) (seq 0 (n_chunks self text))).
Proof.
  intros H. unfold chunk_text, py_range. fold (stride self).
  destruct (stride self =? 0) eqn:E; [apply Z.eqb_eq in E; contradiction|].
  cbn [bind]. rewrite loop_closed by reflexivity. reflexivity.
Qed.

(** Whatever [chunk_text] returns is the list of the chunks of its turns. *)
Lemma chunk_text_inv (self : PDFProcessor) (text : string) (cs : list Chunk) :
  chunk_text self text = Ok cs ->
  stride self <> 0
  /\ cs = map (chunk_at self (split text)) (seq 0 (n_chunks self text)).
Proof.
  intros H. destruct (Z.eq_dec (stride self) 0) as [E|E].
  - rewrite chunk_text_zero_stride in H by assumption. discriminate.
  - rewrite chunk_text_closed in H by assumption. split; congruence.
Qed.

Lemma nth_error_chunks (self : PDFProcessor) (words : list string)
  (n k : nat) (c : Chunk) :
  nth_error (map (chunk_at self words) (seq 0 n)) k = Some c ->
  (k < n)%nat /\ c = chunk_at self words k.
Proof.
  intros H. rewrite nth_error_map in H.
  destruct (nth_error (seq 0 n) k) as [j|] eqn:E; [|discriminate].
  assert (Hk : (k < n)%nat).
  { rewrite <- (length_seq n 0). apply nth_error_Some. congruence. }
  rewrite (nth_error_nth' _ 0%nat) in E by (now rewrite length_seq).
  rewrite seq_nth in E by assumption.
  simpl in *. split; [assumption | congruence].
Qed.

Lemma final_chunk_closed (self : PDFProcessor) (words : list string)
  (n : nat) (c : Chunk) :
  final_chunk (map (chunk_at self words) (seq 0 n)) = Some c ->
  exists k : nat, n = S k /\ c = chunk_at self words k.
Proof.
  unfold final_chunk. destruct n as [|k]; [discriminate|].
  rewrite seq_S, map_app, rev_app_distr. simpl.
  intros H. exists k. split; congruence.
Qed.

(** The start index of every turn lies inside the word list. *)
Lemma start_in_bounds (self : PDFProcessor) (text : string) (k : nat) :
  (k < n_chunks self text)%nat ->
  0 < stride self
  /\ 0 <= Z.of_nat k * stride self < word_total text.
Proof.
  unfold n_chunks. intros Hk.
  pose proof (len_nonneg (split text)) as Hn. fold (word_total text) in Hn.
  destruct (Z_lt_le_dec 0 (stride self)) as [Hs|Hs].
  - destruct (Z_lt_le_dec 0 (word_total text)) as [Hw|Hw].
    + destruct (range_length_bounds Hs Hw) as (_ & Hlo & _).
      split; [assumption|]. nia.
    + rewrite range_length_empty in Hk by assumption. lia.
  - destruct (Z.eq_dec (stride self) 0) as [E|E].
    + rewrite E in Hk. unfold range_length in Hk. simpl in Hk.
      destruct (word_total text <? 0) eqn:E2;
        [apply Z.ltb_lt in E2; lia | lia].
    + rewrite range_length_backwards in Hk by lia. lia.
Qed.

Lemma process_pdf_after_extract
  (fitz_open : string -> result FitzDoc)
  (pdfplumber_open : string -> result PlumberPdf)
  (self : PDFProcessor) (pdf_path : string) :
  process_pdf fitz_open pdfplumber_open self pdf_path
  = (fst (extract fitz_open pdfplumber_open self pdf_path),
     text <- snd (extract fitz_open pdfplumber_open self pdf_path) ;;
     chunks <- chunk_text self text ;;
     Ok {| filename := basename pdf_path;
           full_text := text;
           chunks := chunks;
           total_chunks := len chunks;
           total_chars := str_len text |}).
Proof.
  unfold process_pdf.
  destruct (extract fitz_open pdfplumber_open self pdf_path); reflexivity.
Qed.

(** ** Chunking *)

(** C4. With [chunk_size = 4] and [chunk_overlap = 2] the text
    "a b c d e f g h" is cut into exactly four chunks, in this order:
    "a b c d" (index 0, start 0), "c d e f" (index 1, start 2),
    "e f g h" (index 2, start 4) and "g h" (index 3, start 6). *)
Theorem C4_eight_words_four_chunks :
  chunk_text (cfg 4 2) "a b c d e f g h"
  = Ok [ {| text := "a b c d"; chunk_index := 0; start_char := 0;
            word_count := 4 |};
         {| text := "c d e f"; chunk_index := 1; start_char := 2;
            word_count := 4 |};
         {| text := "e f g h"; chunk_index := 2; start_char := 4;
            word_count := 4 |};
         {| text := "g h"; chunk_index := 3; start_char := 6;
            word_count := 2 |} ].
Proof. vm_compute. reflexivity. Qed.

(** C1, as stated, fails: three words fit into a chunk of four, yet with an
    overlap of two the loop runs a second turn at word 2 and emits a second
    chunk. *)
Lemma C1_three_words_two_chunks :
  1 <= word_total "a b c" <= chunk_size (cfg 4 2)
  /\ ~ one_chunk_all_words (cfg 4 2) "a b c"
  /\ chunk_text (cfg 4 2) "a b c"
     = Ok [ {| text := "a b c"; chunk_index := 0; start_char := 0;
               word_count := 3 |};
            {| text := "c"; chunk_index := 1; start_char := 2;
               word_count := 1 |} ].
Proof.
  split; [vm_compute; split; discriminate|].
  split; [|vm_compute; reflexivity].
  intros (c & H & _). vm_compute in H. discriminate H.
Qed.

(** C1 (amended). A text of N words with [1 <= N <= chunk_size] and
    [N <= chunk_size - chunk_overlap] yields exactly one chunk; the chunk
    holds all N words and its [word_count] is N; [process_pdf] on a document
    with that text reports [total_chunks = 1]. *)
Theorem C1_short_text_one_chunk
  (fitz_open : string -> result FitzDoc)
  (pdfplumber_open : string -> result PlumberPdf)
  (self : PDFProcessor) (pdf_path text : string) :
  1 <= word_total text <= chunk_size self ->
  word_total text <= chunk_size self - chunk_overlap self ->
  one_chunk_all_words self text
  /\ (snd (extract fitz_open pdfplumber_open self pdf_path) = Ok text ->
      exists r : ProcessingResult,
        snd (process_pdf fitz_open pdfplumber_open self pdf_path) = Ok r
        /\ total_chunks r = 1
        /\ List.length (chunks r) = 1%nat).
Proof.
  intros HN Hstep. fold (stride self) in Hstep.
  assert (Hs : 0 < stride self) by lia.
  assert (Hn : n_chunks self text = 1%nat).
  { unfold n_chunks. rewrite range_length_pos by lia.
    rewrite Z.div_small by lia. reflexivity. }
  assert (Hc : chunk_text self text = Ok [chunk_at self (split text) 0]).
  { rewrite chunk_text_closed by lia. rewrite Hn. reflexivity. }
  assert (Hw : pyslice (split text) 0 (0 + chunk_size self) = split text).
  { apply pyslice_whole. fold (word_total text). lia. }
  split.
  - exists (chunk_at self (split text) 0). split; [exact Hc|].
    unfold chunk_at. cbn [pdf_processor.text word_count]. change (Z.of_nat 0) with 0.
    rewrite Z.mul_0_l, Hw. split; reflexivity.
  - intros He. rewrite process_pdf_after_extract, He. cbn [snd bind].
    rewrite Hc. cbn [bind]. eexists. split; [reflexivity|].
    split; reflexivity.
Qed.

Lemma C1_short_text_one_chunk_witness :
  one_chunk_all_words (cfg 4 2) "a b"
  /\ exists r : ProcessingResult,
       snd (process_pdf fitz_three_words plumber_broken (cfg 4 1) "doc.pdf")
       = Ok r
       /\ total_chunks r = 1.
Proof.
  split.
  - apply (C1_short_text_one_chunk fitz_broken plumber_broken (cfg 4 2)
             "doc.pdf" "a b"); vm_compute; try split; discriminate.
  - destruct (C1_short_text_one_chunk fitz_three_words plumber_broken
                (cfg 4 1) "doc.pdf" "a b c") as (_ & H).
    + vm_compute; split; discriminate.
    + vm_compute; discriminate.
    + destruct (H eq_refl) as (r & Hr & Ht & _). exists r. split; assumption.
Defined.

(** C7. With [chunk_overlap < chunk_size], [chunk_text] returns a chunk
    list for every input string and raises nothing: the range has a positive
    step, and every slice starts at an index inside the word list. *)
Theorem C7_chunking_never_raises (self : PDFProcessor) (text : string) :
  chunk_overlap self < chunk_size self ->
  exists cs : list Chunk,
    chunk_text self text = Ok cs
    /\ List.length cs = n_chunks self text
    /\ forall c : Chunk, In c cs ->
         0 <= start_char c < word_total text
         /\ pdf_processor.text c
            = join " " (pyslice (split text) (start_char c)
                                (start_char c + chunk_size self)).
Proof.
  intros Hv. assert (Hs : stride self <> 0) by (unfold stride; lia).
  eexists. split; [apply chunk_text_closed; assumption|].
  split; [now rewrite length_map, length_seq|].
  intros c Hin. apply in_map_iff in Hin. destruct Hin as (k & <- & Hk).
  apply in_seq in Hk. split.
  - apply start_in_bounds. lia.
  - reflexivity.
Qed.

Lemma C7_chunking_never_raises_witness :
  exists cs : list Chunk,
    chunk_text (cfg 1000 200) "the quick brown fox" = Ok cs
    /\ List.length cs = 1%nat.
Proof.
  destruct (C7_chunking_never_raises (cfg 1000 200) "the quick brown fox")
    as (cs & H & Hl & _).
  - vm_compute. reflexivity.
  - exists cs. split; [exact H | exact Hl].
Defined.

(** C6, as stated, fails for a negative overlap: with [chunk_size = 2] and
    [chunk_overlap = -1] the stride is 3, the text "a b c" gives the single
    chunk "a b", and that chunk ends at word 2, before the third word. *)
Lemma C6_negative_overlap_leaves_gap :
  chunk_overlap (cfg 2 (-1)) < chunk_size (cfg 2 (-1))
  /\ exists cs : list Chunk,
       chunk_text (cfg 2 (-1)) "a b c" = Ok cs
       /\ cs = [ {| text := "a b"; chunk_index := 0; start_char := 0;
                    word_count := 2 |} ]
       /\ ~ final_chunk_covers "a b c" cs.
Proof.
  split; [vm_compute; reflexivity|].
  eexists. split; [vm_compute; reflexivity|]. split; [reflexivity|].
  intros H. specialize (H _ eq_refl). vm_compute in H. apply H. reflexivity.
Qed.

(** C6 (amended). For every text and every configuration with
    [0 <= chunk_overlap < chunk_size], the chunks start at the word offsets
    0, stride, 2 * stride, ... with [stride = chunk_size - chunk_overlap],
    each strictly after the one before, and the last chunk ends at or after
    the last word of the text. *)
Theorem C6_offsets_and_coverage (self : PDFProcessor) (text : string) :
  0 <= chunk_overlap self < chunk_size self ->
  exists cs : list Chunk,
    chunk_text self text = Ok cs
    /\ offsets_by_stride (stride self) cs
    /\ offsets_step_apart (stride self) cs
    /\ final_chunk_covers text cs.
Proof.
  intros Hv. assert (Hs : 0 < stride self) by (unfold stride; lia).
  eexists. split; [apply chunk_text_closed; lia|].
  split; [|split].
  - intros k c H. apply nth_error_chunks in H. destruct H as (_ & ->).
    reflexivity.
  - intros k c c' H H'.
    apply nth_error_chunks in H. destruct H as (_ & ->).
    apply nth_error_chunks in H'. destruct H' as (_ & ->).
    unfold chunk_at. cbn [start_char]. lia.
  - intros c H. apply final_chunk_closed in H. destruct H as (k & Hn & ->).
    assert (Hk : (k < n_chunks self text)%nat) by lia.
    destruct (start_in_bounds self text Hk) as (_ & Hlo & Hhi).
    destruct (@range_length_bounds (word_total text) (stride self))
      as (_ & _ & Hup); [lia | lia |].
    fold (n_chunks self text) in Hup. rewrite Hn in Hup.
    unfold chunk_at. cbn [start_char word_count].
    rewrite len_pyslice_nonneg by (unfold stride in *; lia).
    fold (word_total text). unfold stride in *. lia.
Qed.

Lemma C6_offsets_and_coverage_witness :
  exists cs : list Chunk,
    chunk_text (cfg 4 2) "a b c d e f g h" = Ok cs
    /\ offsets_by_stride 2 cs
    /\ final_chunk_covers "a b c d e f g h" cs.
Proof.
  destruct (C6_offsets_and_coverage (cfg 4 2) "a b c d e f g h")
    as (cs & H & Ho & _ & Hf).
  - simpl. lia.
  - exists cs. split; [exact H|]. split; [exact Ho | exact Hf].
Defined.

(** C9. In every chunk that [chunk_text] emits, the value under
    ['start_char'] is a word index: the chunk of turn [k] starts at word
    [k * stride], that index lies inside the word list, exactly that many
    words of the text precede the chunk, and the chunk's text is the join of
    the words from that index on. *)
Theorem C9_start_char_is_word_index
  (self : PDFProcessor) (text : string) (cs : list Chunk)
  (k : nat) (c : Chunk) :
  chunk_text self text = Ok cs ->
  nth_error cs k = Some c ->
  start_char c = Z.of_nat k * stride self
  /\ 0 <= start_char c < word_total text
  /\ len (firstn (Z.to_nat (start_char c)) (split text)) = start_char c
  /\ exists m : nat,
       pdf_processor.text c
       = join " " (firstn m (skipn (Z.to_nat (start_char c)) (split text)))
       /\ word_count c
          = len (firstn m (skipn (Z.to_nat (start_char c)) (split text))).
Proof.
  intros H Hk. apply chunk_text_inv in H. destruct H as (_ & ->).
  apply nth_error_chunks in Hk. destruct Hk as (Hlt & ->).
  destruct (start_in_bounds self text Hlt) as (_ & Hb).
  unfold chunk_at. cbn [start_char pdf_processor.text word_count].
  split; [reflexivity|]. split; [exact Hb|].
  destruct (@pyslice_skips _ (split text) (Z.of_nat k * stride self)
              (Z.of_nat k * stride self + chunk_size self))
    as (m & Hm & Hpre).
  { fold (word_total text). lia. }
  split; [exact Hpre|]. exists m. rewrite Hm. split; reflexivity.
Qed.

Lemma C9_start_char_is_word_index_witness :
  start_char {| text := "c d e f"; chunk_index := 1; start_char := 2;
                word_count := 4 |} = 1 * stride (cfg 4 2)
  /\ len (firstn 2 (split "a b c d e f g h")) = 2.
Proof.
  destruct (@C9_start_char_is_word_index (cfg 4 2) "a b c d e f g h"
              [ {| text := "a b c d"; chunk_index := 0; start_char := 0;
                   word_count := 4 |};
                {| text := "c d e f"; chunk_index := 1; start_char := 2;
                   word_count := 4 |};
                {| text := "e f g h"; chunk_index := 2; start_char := 4;
                   word_count := 4 |};
                {| text := "g h"; chunk_index := 3; start_char := 6;
                   word_count := 2 |} ] 1
              {| text := "c d e f"; chunk_index := 1; start_char := 2;
                 word_count := 4 |})
    as (H & _ & Hp & _).
  - vm_compute. reflexivity.
  - reflexivity.
  - split; [exact H | exact Hp].
Defined.

(** The word index differs from the character offset: the second chunk of
    the text "a b c d e f g h" begins at character 4 and carries
    [start_char = 2]. *)
Example start_char_is_not_a_character_offset :
  exists c : Chunk,
    (cs <- chunk_text (cfg 4 2) "a b c d e f g h" ;;
     Ok (nth_error cs 1)) = Ok (Some c)
    /\ substring 4 (String.length (pdf_processor.text c)) "a b c d e f g h"
       = pdf_processor.text c
    /\ start_char c = 2.
Proof. eexists. vm_compute. repeat split. Qed.

(** ** The processing pipeline *)

(** C5. Whenever extraction succeeds, the record that [process_pdf] returns
    has [total_chunks = len(chunks)] and [total_chars = len(full_text)], and
    the chunk emitted in turn [k] has [chunk_index = k]: the indices are
    0, 1, 2, ... in emission order. Such a record is returned whenever the
    stride is not zero. *)
Theorem C5_result_invariant
  (fitz_open : string -> result FitzDoc)
  (pdfplumber_open : string -> result PlumberPdf)
  (self : PDFProcessor) (pdf_path text : string) :
  snd (extract fitz_open pdfplumber_open self pdf_path) = Ok text ->
  (stride self <> 0 ->
   exists r : ProcessingResult,
     snd (process_pdf fitz_open pdfplumber_open self pdf_path) = Ok r)
  /\ (forall r : ProcessingResult,
        snd (process_pdf fitz_open pdfplumber_open self pdf_path) = Ok r ->
        full_text r = text /\ result_invariant r).
Proof.
  intros He. rewrite process_pdf_after_extract, He. cbn [snd bind]. split.
  - intros Hs. rewrite chunk_text_closed by assumption. cbn [bind].
    eexists. reflexivity.
  - intros r Hr.
    destruct (chunk_text self text) as [cs|e] eqn:Hc; [|discriminate].
    cbn [bind] in Hr. injection Hr as <-.
    unfold result_invariant.
    cbn [full_text total_chunks total_chars chunks].
    repeat split.
    apply chunk_text_inv in Hc. destruct Hc as (_ & ->).
    intros k c Hk. apply nth_error_chunks in Hk. destruct Hk as (_ & ->).
    reflexivity.
Qed.

Lemma C5_result_invariant_witness :
  exists r : ProcessingResult,
    snd (process_pdf fitz_two_pages plumber_two_pages (cfg 4 2) "/in/doc.pdf")
    = Ok r
    /\ full_text r = "a b c d e f g h"
    /\ result_invariant r.
Proof.
  destruct (@C5_result_invariant fitz_two_pages plumber_two_pages (cfg 4 2)
              "/in/doc.pdf" "a b c d e f g h" eq_refl) as (Hex & Hinv).
  destruct Hex as (r & Hr).
  - vm_compute. discriminate.
  - exists r. split; [exact Hr | exact (Hinv r Hr)].
Defined.

(** C8, as stated, fails when [chunk_size = chunk_overlap]: the document
    has no text, extraction succeeds with the empty string, and the loop
    header raises [ValueError] for its zero step. *)
Lemma C8_empty_text_zero_stride_raises :
  snd (extract fitz_blank plumber_broken (cfg 3 3) "blank.pdf") = Ok ""
  /\ snd (process_pdf fitz_blank plumber_broken (cfg 3 3) "blank.pdf")
     = Raise (ValueError "range() arg 3 must not be zero").
Proof. split; vm_compute; reflexivity. Qed.

(** C8 (amended). For every processor with [chunk_size <> chunk_overlap]
    and every document whose extracted text is the empty string,
    [process_pdf] succeeds, and its result has [total_chunks = 0],
    [total_chars = 0] and no chunk. *)
Theorem C8_empty_text_no_chunks
  (fitz_open : string -> result FitzDoc)
  (pdfplumber_open : string -> result PlumberPdf)
  (self : PDFProcessor) (pdf_path : string) :
  chunk_size self <> chunk_overlap self ->
  snd (extract fitz_open pdfplumber_open self pdf_path) = Ok "" ->
  snd (process_pdf fitz_open pdfplumber_open self pdf_path)
  = Ok (empty_result pdf_path).
Proof.
  intros Hne He. rewrite process_pdf_after_extract, He. cbn [snd bind].
  assert (Hs : stride self <> 0) by (unfold stride; lia).
  rewrite chunk_text_closed by assumption.
  assert (Hn : n_chunks self "" = 0%nat).
  { unfold n_chunks. change (word_total "") with 0.
    destruct (Z_lt_le_dec 0 (stride self)).
    - apply range_length_empty; lia.
    - apply range_length_backwards; lia. }
  rewrite Hn. reflexivity.
Qed.

Lemma C8_empty_text_no_chunks_witness :
  snd (process_pdf fitz_blank plumber_broken (cfg 1000 200) "/in/blank.pdf")
  = Ok {| filename := "blank.pdf"; full_text := ""; chunks := [];
          total_chunks := 0; total_chars := 0 |}.
Proof.
  apply (@C8_empty_text_no_chunks fitz_blank plumber_broken (cfg 1000 200)
           "/in/blank.pdf").
  - vm_compute. discriminate.
  - vm_compute. reflexivity.
Defined.

(** C2, as stated, fails: the constructor accepts an overlap equal to the
    size, and one above it. With equal values the error appears only when
    [chunk_text] is called, and it is a [ValueError]; with a larger overlap
    the loop runs with a negative stride and returns no chunk at all. *)
Lemma C2_constructor_accepts_any_overlap :
  __init__ 4 4 = Ok (cfg 4 4)
  /\ chunk_text (cfg 4 4) "a b c"
     = Raise (ValueError "range() arg 3 must not be zero")
  /\ __init__ 2 4 = Ok (cfg 2 4)
  /\ stride (cfg 2 4) = -2
  /\ chunk_text (cfg 2 4) "a b c" = Ok [].
Proof. repeat split. Qed.

(** C2 (amended). Constructing a [PDFProcessor] never fails, whatever the
    size and the overlap. With [chunk_overlap = chunk_size] every call of
    [chunk_text] raises [ValueError] before a chunk is built; with
    [chunk_overlap > chunk_size] every call returns the empty list. *)
Theorem C2_no_validation_at_construction (size overlap : Z) :
  __init__ size overlap = Ok (cfg size overlap)
  /\ (overlap = size ->
      forall text : string,
        chunk_text (cfg size overlap) text
        = Raise (ValueError "range() arg 3 must not be zero"))
  /\ (size < overlap ->
      forall text : string, chunk_text (cfg size overlap) text = Ok []).
Proof.
  split; [reflexivity|]. split.
  - intros -> text. apply chunk_text_zero_stride. unfold stride, cfg.
    cbn [chunk_size chunk_overlap]. lia.
  - intros Hlt text.
    assert (Hs : stride (cfg size overlap) < 0)
      by (unfold stride, cfg; cbn [chunk_size chunk_overlap]; lia).
    rewrite chunk_text_closed by lia.
    unfold n_chunks. rewrite range_length_backwards;
      [reflexivity | apply len_nonneg | exact Hs].
Qed.

Lemma C2_no_validation_at_construction_witness :
  chunk_text (cfg 5 5) ""
  = Raise (ValueError "range() arg 3 must not be zero")
  /\ chunk_text (cfg 5 7) "a b c d e f g h" = Ok [].
Proof.
  destruct (C2_no_validation_at_construction 5 5) as (_ & Hz & _).
  destruct (C2_no_validation_at_construction 5 7) as (_ & _ & Hn).
  split.
  - apply Hz. reflexivity.
  - apply Hn. reflexivity.
Defined.

(** ** Extraction with fallback *)

Lemma extract_primary_ok
  (fitz_open : string -> result FitzDoc)
  (pdfplumber_open : string -> result PlumberPdf)
  (self : PDFProcessor) (pdf_path t : string) :
  snd (extract_text_pymupdf fitz_open self pdf_path) = Ok t ->
  extract fitz_open pdfplumber_open self pdf_path
  = ([FitzOpen pdf_path], Ok t).
Proof.
  unfold extract, extract_text_pymupdf. cbn [snd]. intros ->. reflexivity.
Qed.

Lemma extract_primary_raises
  (fitz_open : string -> result FitzDoc)
  (pdfplumber_open : string -> result PlumberPdf)
  (self : PDFProcessor) (pdf_path : string) (e : exn) :
  snd (extract_text_pymupdf fitz_open self pdf_path) = Raise e ->
  extract fitz_open pdfplumber_open self pdf_path
  = ([FitzOpen pdf_path; PlumberOpen pdf_path],
     snd (extract_text_pdfplumber pdfplumber_open self pdf_path)).
Proof.
  unfold extract, extract_text_pymupdf, extract_text_pdfplumber. cbn [snd].
  intros ->. reflexivity.
Qed.

(** C3. [process_pdf] enters the primary library first. When the primary
    returns a text the fallback is not entered at all; when the primary
    raises, whatever the error, the fallback is entered exactly once; when
    the fallback raises too, [process_pdf] raises the fallback's error and
    returns no record. *)
Theorem C3_fallback_policy
  (fitz_open : string -> result FitzDoc)
  (pdfplumber_open : string -> result PlumberPdf)
  (self : PDFProcessor) (pdf_path : string) :
  hd_error (fst (process_pdf fitz_open pdfplumber_open self pdf_path))
  = Some (FitzOpen pdf_path)
  /\ (forall t : string,
        snd (extract_text_pymupdf fitz_open self pdf_path) = Ok t ->
        fst (process_pdf fitz_open pdfplumber_open self pdf_path)
        = [FitzOpen pdf_path]
        /\ fallback_attempts
             (fst (process_pdf fitz_open pdfplumber_open self pdf_path))
           = 0%nat)
  /\ (forall e : exn,
        snd (extract_text_pymupdf fitz_open self pdf_path) = Raise e ->
        fst (process_pdf fitz_open pdfplumber_open self pdf_path)
        = [FitzOpen pdf_path; PlumberOpen pdf_path]
        /\ fallback_attempts
             (fst (process_pdf fitz_open pdfplumber_open self pdf_path))
           = 1%nat)
  /\ (forall e1 e2 : exn,
        snd (extract_text_pymupdf fitz_open self pdf_path) = Raise e1 ->
        snd (extract_text_pdfplumber pdfplumber_open self pdf_path)
        = Raise e2 ->
        snd (process_pdf fitz_open pdfplumber_open self pdf_path)
        = Raise e2).
Proof.
  rewrite process_pdf_after_extract. cbn [fst snd].
  destruct (snd (extract_text_pymupdf fitz_open self pdf_path))
    as [t|e] eqn:Hp.
  - rewrite (extract_primary_ok _ pdfplumber_open _ _ Hp).
    cbn [fst snd hd_error].
    split; [reflexivity|]. split; [|split].
    + intros _ _. split; reflexivity.
    + intros e He. discriminate He.
    + intros e1 e2 He. discriminate He.
  - rewrite (extract_primary_raises _ pdfplumber_open _ _ Hp).
    cbn [fst snd hd_error].
    split; [reflexivity|]. split; [|split].
    + intros t Ht. discriminate Ht.
    + intros _ _. split; reflexivity.
    + intros _ e2 _ ->. reflexivity.
Qed.

Lemma C3_fallback_policy_witness :
  fst (process_pdf fitz_broken plumber_broken (cfg 4 2) "bad.pdf")
  = [FitzOpen "bad.pdf"; PlumberOpen "bad.pdf"]
  /\ snd (process_pdf fitz_broken plumber_broken (cfg 4 2) "bad.pdf")
     = Raise (Exception
         ("Error extracting text with pdfplumber: "
          ++ "No /Root object! - Is this really a PDF?"))
  /\ fst (process_pdf fitz_two_pages plumber_broken (cfg 4 2) "doc.pdf")
     = [FitzOpen "doc.pdf"].
Proof.
  destruct (C3_fallback_policy fitz_broken plumber_broken (cfg 4 2) "bad.pdf")
    as (_ & _ & Hr & Hb).
  destruct (C3_fallback_policy fitz_two_pages plumber_broken (cfg 4 2)
              "doc.pdf") as (_ & Hok & _).
  split; [|split].
  - apply (Hr (Exception ("Error extracting text with PyMuPDF: "
                          ++ "cannot open broken document"))).
    reflexivity.
  - apply (Hb (Exception ("Error extracting text with PyMuPDF: "
                          ++ "cannot open broken document"))).
    + reflexivity.
    + reflexivity.
  - apply (Hok "a b c d e f g h"). reflexivity.
Defined.

(** ** The upload handler *)

(** C10. For every upload whose file name does not end in ".pdf", the
    handler raises an [HTTPException] with status 500 and never one with
    status 400: the 400 error raised inside the [try] is caught by
    [except Exception] and wrapped into a 500 whose detail is the [str] of
    the 400 error. *)
Theorem C10_rejected_upload_is_500
  (HTTPException_str : Z -> string -> string)
  (file : app.UploadFile) (name user_id : string) :
  app.filename file = Some name ->
  endswith name ".pdf" = false ->
  app.upload_pdf_try file user_id
  = Raise (app.HTTPException 400 "Only PDF files allowed")
  /\ app.upload_pdf HTTPException_str file user_id
     = Raise (app.HTTPException 500
                (app.str HTTPException_str
                   (app.HTTPException 400 "Only PDF files allowed")))
  /\ app.status_code_of (app.upload_pdf HTTPException_str file user_id)
     = Some 500
  /\ app.status_code_of (app.upload_pdf HTTPException_str file user_id)
     <> Some 400.
Proof.
  intros Hf Hs.
  assert (Ht : app.upload_pdf_try file user_id
               = Raise (app.HTTPException 400 "Only PDF files allowed")).
  { unfold app.upload_pdf_try. rewrite Hf, Hs. reflexivity. }
  unfold app.upload_pdf. rewrite Ht. cbn [app.status_code_of].
  repeat split. discriminate.
Qed.

Lemma C10_rejected_upload_is_500_witness :
  app.upload_pdf (fun (code : Z) (detail : string) => detail)
    {| app.filename := Some "notes.txt" |} "u1"
  = Raise (app.HTTPException 500 "Only PDF files allowed").
Proof.
  destruct (@C10_rejected_upload_is_500
              (fun (code : Z) (detail : string) => detail)
              {| app.filename := Some "notes.txt" |} "notes.txt" "u1")
    as (_ & H & _).
  - reflexivity.
  - vm_compute. reflexivity.
  - exact H.
Defined.

(** * Further properties of the code *)

Import props.

(** ** More facts about slices and ranges *)

Lemma firstn_plus {A : Type} (x y : nat) (l : list A) :
  firstn (x + y) l = firstn x l ++ firstn y (skipn x l).
Proof.
  revert l. induction x as [|x IH]; intros l; [reflexivity|].
  destruct l as [|a l]; simpl.
  - now rewrite firstn_nil.
  - now rewrite IH.
Qed.

(** Two adjacent slices make up the slice over both. *)
Lemma pyslice_app {A : Type} (l : list A) (a b c : Z) :
  0 <= a <= b -> b <= c ->
  pyslice l a c = pyslice l a b ++ pyslice l b c.
Proof.
  intros Hab Hbc. unfold pyslice.
  pose proof (len_nonneg l) as Hn.
  rewrite !clamp_nonneg by lia.
  set (a' := Z.min a (len l)). set (b' := Z.min b (len l)).
  set (c' := Z.min c (len l)).
  assert (Ha : 0 <= a' <= b') by (subst a' b'; lia).
  assert (Hb : b' <= c') by (subst b' c'; lia).
  replace (Z.to_nat (c' - a'))
    with (Z.to_nat (b' - a') + Z.to_nat (c' - b'))%nat by lia.
  rewrite firstn_plus, skipn_skipn.
  replace (Z.to_nat (b' - a') + Z.to_nat a')%nat with (Z.to_nat b') by lia.
  reflexivity.
Qed.

(** An element of a slice is the element of the list at the shifted index. *)
Lemma nth_error_pyslice {A : Type} (l : list A) (i j p : Z) :
  0 <= i <= p -> p < j -> p < len l ->
  nth_error (pyslice l i j) (Z.to_nat (p - i)) = nth_error l (Z.to_nat p).
Proof.
  intros Hi Hj Hp. unfold pyslice.
  rewrite !clamp_nonneg by lia.
  rewrite nth_error_firstn.
  replace (Z.to_nat (p - i) <? Z.to_nat (Z.min j (len l) - Z.min i (len l)))%nat
    with true by (symmetry; apply Nat.ltb_lt; lia).
  rewrite nth_error_skipn. f_equal. lia.
Qed.

Lemma nth_error_chunks_intro (self : PDFProcessor) (words : list string)
  (n k : nat) :
  (k < n)%nat ->
  nth_error (map (chunk_at self words) (seq 0 n)) k
  = Some (chunk_at self words k).
Proof.
  intros Hk. rewrite nth_error_map, nth_error_seq.
  replace (k <? n)%nat with true by (symmetry; now apply Nat.ltb_lt).
  reflexivity.
Qed.

Lemma in_chunks (self : PDFProcessor) (text : string) (c : Chunk) :
  In c (map (chunk_at self (split text)) (seq 0 (n_chunks self text))) ->
  exists k : nat,
    c = chunk_at self (split text) k
    /\ 0 < stride self
    /\ 0 <= Z.of_nat k * stride self < word_total text.
Proof.
  intros Hin. apply in_map_iff in Hin. destruct Hin as (k & <- & Hk).
  apply in_seq in Hk. exists k. split; [reflexivity|].
  apply start_in_bounds. lia.
Qed.

(** ** Chunking: counts, sizes, coverage and overlap *)

(** X1. With [chunk_overlap < chunk_size], a text of N words is cut into
    exactly ceil(N / stride) chunks. *)
Theorem chunk_count_is_ceiling (self : PDFProcessor) (text : string) :
  chunk_overlap self < chunk_size self ->
  exists cs : list Chunk,
    chunk_text self text = Ok cs
    /\ len cs = (word_total text + stride self - 1) / stride self.
Proof.
  intros Hv. assert (Hs : 0 < stride self) by (unfold stride; lia).
  eexists. split; [apply chunk_text_closed; lia|].
  unfold len. rewrite length_map, length_seq. unfold n_chunks.
  pose proof (len_nonneg (split text)) as Hn. fold (word_total text) in Hn.
  destruct (Z.eq_dec (word_total text) 0) as [E|E].
  - rewrite E, range_length_empty by lia.
    rewrite Z.div_small by lia. reflexivity.
  - rewrite range_length_pos by lia.
    replace (word_total text + stride self - 1)
      with (word_total text - 1 + 1 * stride self) by lia.
    rewrite Z.div_add by lia.
    pose proof (Z.div_pos (word_total text - 1) (stride self)
                  ltac:(lia) Hs).
    lia.
Qed.

Lemma chunk_count_is_ceiling_witness :
  exists cs : list Chunk,
    chunk_text (cfg 4 2) "a b c d e f g" = Ok cs /\ len cs = 4.
Proof.
  destruct (chunk_count_is_ceiling (cfg 4 2) "a b c d e f g") as (cs & H & Hl).
  - simpl. lia.
  - exists cs. split; [exact H | exact Hl].
Defined.

(** X2. With a positive [chunk_size], every emitted chunk holds at least one
    word and at most [chunk_size] words: its [word_count] is the smaller of
    [chunk_size] and the number of words from its start to the end of the
    text. *)
Theorem word_count_bounds
  (self : PDFProcessor) (text : string) (cs : list Chunk) (c : Chunk) :
  0 < chunk_size self ->
  chunk_text self text = Ok cs ->
  In c cs ->
  word_count c = Z.min (chunk_size self) (word_total text - start_char c)
  /\ 1 <= word_count c <= chunk_size self.
Proof.
  intros Hsz H Hin. apply chunk_text_inv in H. destruct H as (_ & ->).
  apply in_chunks in Hin. destruct Hin as (k & -> & Hs & Hb).
  unfold chunk_at. cbn [word_count start_char].
  rewrite len_pyslice_nonneg by lia. fold (word_total text). lia.
Qed.

Lemma word_count_bounds_witness :
  word_count {| text := "g h"; chunk_index := 3; start_char := 6;
                word_count := 2 |}
  = Z.min 4 (word_total "a b c d e f g h" - 6).
Proof.
  destruct (@word_count_bounds (cfg 4 2) "a b c d e f g h"
              [ {| text := "a b c d"; chunk_index := 0; start_char := 0;
                   word_count := 4 |};
                {| text := "c d e f"; chunk_index := 1; start_char := 2;
                   word_count := 4 |};
                {| text := "e f g h"; chunk_index := 2; start_char := 4;
                   word_count := 4 |};
                {| text := "g h"; chunk_index := 3; start_char := 6;
                   word_count := 2 |} ]
              {| text := "g h"; chunk_index := 3; start_char := 6;
                 word_count := 2 |}) as (H & _).
  - simpl. lia.
  - vm_compute. reflexivity.
  - simpl. tauto.
  - exact H.
Defined.

(** X3. With [0 <= chunk_overlap < chunk_size] no word is dropped: every
    word of the text lies inside some emitted chunk, at its own position
    counted from the chunk's start. *)
Theorem every_word_is_covered
  (self : PDFProcessor) (text : string) (j : Z) :
  0 <= chunk_overlap self < chunk_size self ->
  0 <= j < word_total text ->
  exists (cs : list Chunk) (k : nat) (c : Chunk),
    chunk_text self text = Ok cs
    /\ nth_error cs k = Some c
    /\ covers c j
    /\ pdf_processor.text c = join " " (chunk_words self text c)
    /\ nth_error (chunk_words self text c) (Z.to_nat (j - start_char c))
       = nth_error (split text) (Z.to_nat j).
Proof.
  intros Hv Hj. assert (Hs : 0 < stride self) by (unfold stride; lia).
  set (k := Z.to_nat (j / stride self)).
  pose proof (Z.div_pos j (stride self) ltac:(lia) Hs) as Hq.
  pose proof (Z.mul_div_le j (stride self) Hs) as Hlo.
  pose proof (Z.mul_succ_div_gt j (stride self) Hs) as Hhi.
  assert (Hk : (k < n_chunks self text)%nat).
  { unfold n_chunks. rewrite range_length_pos by lia.
    pose proof (Z.div_le_mono j (word_total text - 1) (stride self)
                  Hs ltac:(lia)).
    subst k. lia. }
  assert (Hi : 0 <= Z.of_nat k * stride self <= j
               /\ j < Z.of_nat k * stride self + stride self)
    by (subst k; rewrite Z2Nat.id by lia; lia).
  exists (map (chunk_at self (split text)) (seq 0 (n_chunks self text))),
    k, (chunk_at self (split text) k).
  split; [apply chunk_text_closed; lia|].
  split; [apply nth_error_chunks_intro; exact Hk|].
  unfold covers, chunk_words, chunk_at.
  cbn [start_char word_count pdf_processor.text].
  set (i := Z.of_nat k * stride self) in *. clearbody i.
  unfold stride in *.
  split; [|split; [reflexivity|]].
  - rewrite len_pyslice_nonneg by lia. fold (word_total text). lia.
  - apply nth_error_pyslice; fold (word_total text); lia.
Qed.

Lemma every_word_is_covered_witness :
  exists (cs : list Chunk) (k : nat) (c : Chunk),
    chunk_text (cfg 4 2) "a b c d e f g h" = Ok cs
    /\ nth_error cs k = Some c
    /\ covers c 5.
Proof.
  destruct (@every_word_is_covered (cfg 4 2) "a b c d e f g h" 5)
    as (cs & k & c & H & Hk & Hc & _).
  - simpl. lia.
  - vm_compute. split; [discriminate | reflexivity].
  - exists cs, k, c. split; [exact H|]. split; [exact Hk | exact Hc].
Defined.

(** X4. With [0 <= chunk_overlap < chunk_size], two consecutive chunks
    overlap as configured: the earlier chunk is [stride] words of its own
    followed by the shared words, the later chunk begins with the same shared
    words, and there are [chunk_overlap] shared words unless the text ends
    before. *)
Theorem consecutive_chunks_overlap
  (self : PDFProcessor) (text : string) (cs : list Chunk)
  (k : nat) (c c' : Chunk) :
  0 <= chunk_overlap self < chunk_size self ->
  chunk_text self text = Ok cs ->
  nth_error cs k = Some c ->
  nth_error cs (S k) = Some c' ->
  exists own shared rest : list string,
    pdf_processor.text c = join " " (own ++ shared)
    /\ pdf_processor.text c' = join " " (shared ++ rest)
    /\ len own = stride self
    /\ len shared
       = Z.min (chunk_overlap self) (word_total text - start_char c').
Proof.
  intros Hv H Hk Hk'. apply chunk_text_inv in H. destruct H as (_ & ->).
  apply nth_error_chunks in Hk. destruct Hk as (Hlt & ->).
  apply nth_error_chunks in Hk'. destruct Hk' as (Hlt' & ->).
  destruct (start_in_bounds self text Hlt) as (Hs & Hb).
  destruct (start_in_bounds self text Hlt') as (_ & Hb').
  set (i := Z.of_nat k * stride self) in *.
  assert (Hi' : Z.of_nat (S k) * stride self = i + stride self)
    by (subst i; lia).
  rewrite Hi' in Hb'.
  exists (pyslice (split text) i (i + stride self)),
    (pyslice (split text) (i + stride self) (i + chunk_size self)),
    (pyslice (split text) (i + chunk_size self)
       (i + stride self + chunk_size self)).
  unfold chunk_at. cbn [pdf_processor.text start_char]. fold i. rewrite Hi'.
  unfold stride in *.
  split; [|split; [|split]].
  - rewrite <- pyslice_app by lia. reflexivity.
  - rewrite <- pyslice_app by lia. reflexivity.
  - rewrite len_pyslice_nonneg by lia. fold (word_total text). lia.
  - rewrite len_pyslice_nonneg by lia. fold (word_total text). lia.
Qed.

Lemma consecutive_chunks_overlap_witness :
  exists own shared rest : list string,
    "a b c d" = join " " (own ++ shared)
    /\ "c d e f" = join " " (shared ++ rest)
    /\ len shared = 2.
Proof.
  destruct (@consecutive_chunks_overlap (cfg 4 2) "a b c d e f g h"
              [ {| text := "a b c d"; chunk_index := 0; start_char := 0;
                   word_count := 4 |};
                {| text := "c d e f"; chunk_index := 1; start_char := 2;
                   word_count := 4 |};
                {| text := "e f g h"; chunk_index := 2; start_char := 4;
                   word_count := 4 |};
                {| text := "g h"; chunk_index := 3; start_char := 6;
                   word_count := 2 |} ] 0
              {| text := "a b c d"; chunk_index := 0; start_char := 0;
                 word_count := 4 |}
              {| text := "c d e f"; chunk_index := 1; start_char := 2;
                 word_count := 4 |})
    as (own & shared & rest & H1 & H2 & _ & H4).
  - simpl. lia.
  - vm_compute. reflexivity.
  - reflexivity.
  - reflexivity.
  - exists own, shared, rest. split; [exact H1|]. split; [exact H2|].
    exact H4.
Defined.

(** ** Splitting and joining *)

Lemma append_nil_r (s : string) : (s ++ "")%string = s.
Proof. induction s as [|c s IH]; simpl; [reflexivity | now rewrite IH]. Qed.

Lemma append_assoc (s t u : string) :
  ((s ++ t) ++ u)%string = (s ++ (t ++ u))%string.
Proof. induction s as [|c s IH]; simpl; [reflexivity | now rewrite IH]. Qed.

Lemma length_append (s t : string) :
  String.length (s ++ t) = (String.length s + String.length t)%nat.
Proof. induction s as [|c s IH]; simpl; [reflexivity | now rewrite IH]. Qed.

(** Reading a whitespace-free stretch only extends the word being read. *)
Lemma split_from_word (w rest : string) :
  forall cur : list ascii,
    forallb nonspace (list_ascii_of_string w) = true ->
    split_from cur (w ++ rest)
    = split_from (rev (list_ascii_of_string w) ++ cur) rest.
Proof.
  induction w as [|c w IH]; intros cur Hw; [reflexivity|].
  simpl in Hw. apply andb_true_iff in Hw. destruct Hw as (Hc & Hw).
  unfold nonspace in Hc. apply negb_true_iff in Hc.
  cbn [append split_from list_ascii_of_string rev]. rewrite Hc.
  rewrite IH by assumption. now rewrite <- app_assoc.
Qed.

Lemma split_from_flush (cur : list ascii) :
  cur <> [] ->
  split_from cur "" = [string_of_list_ascii (rev cur)]
  /\ forall (c : ascii) (rest : string),
       isspace c = true ->
       split_from cur (String c rest)
       = string_of_list_ascii (rev cur) :: split_from [] rest.
Proof.
  intros Hne. destruct cur as [|a cur]; [contradiction|].
  split; [reflexivity|]. intros c rest Hc. cbn [split_from]. now rewrite Hc.
Qed.

Lemma is_word_chars (w : string) :
  is_word w = true ->
  forallb nonspace (list_ascii_of_string w) = true
  /\ rev (list_ascii_of_string w) ++ [] <> []
  /\ string_of_list_ascii (rev (rev (list_ascii_of_string w) ++ [])) = w.
Proof.
  intros Hw. destruct w as [|a w]; [discriminate|].
  split; [exact Hw|]. split.
  - intros E. apply (f_equal (@List.length ascii)) in E.
    rewrite length_app, length_rev in E. simpl in E. lia.
  - rewrite app_nil_r, rev_involutive. apply string_of_list_ascii_of_string.
Qed.

(** Splitting a word that ends the text, or that a blank follows. *)
Lemma split_word_last (w : string) :
  is_word w = true -> split w = [w].
Proof.
  intros Hw. destruct (is_word_chars w Hw) as (Hc & Hne & Hrt).
  unfold split. rewrite <- (append_nil_r w) at 1.
  rewrite split_from_word by assumption.
  destruct (split_from_flush Hne) as (-> & _). now rewrite Hrt.
Qed.

Lemma split_word_blank (w rest : string) :
  is_word w = true ->
  split (w ++ String " " rest) = w :: split rest.
Proof.
  intros Hw. destruct (is_word_chars w Hw) as (Hc & Hne & Hrt).
  unfold split. rewrite split_from_word by assumption.
  destruct (split_from_flush Hne) as (_ & ->); [|reflexivity].
  now rewrite Hrt.
Qed.

(** [" ".join(words).split() == words] for words without whitespace. *)
Lemma split_join (ws : list string) :
  Forall (fun w => is_word w = true) ws -> split (join " " ws) = ws.
Proof.
  induction ws as [|w ws IH]; intros Hws; [reflexivity|].
  inversion Hws as [|? ? Hw Hrest]; subst.
  destruct ws as [|w' ws].
  - apply split_word_last. exact Hw.
  - change (join " " (w :: w' :: ws))
      with (w ++ String " " (join " " (w' :: ws)))%string.
    rewrite split_word_blank by assumption. now rewrite IH.
Qed.

Lemma is_word_flushed (cur : list ascii) :
  cur <> [] -> forallb nonspace cur = true ->
  is_word (string_of_list_ascii (rev cur)) = true.
Proof.
  intros Hne Hc.
  assert (Hr : forallb nonspace (rev cur) = true).
  { apply forallb_forall. intros x Hx. apply in_rev in Hx.
    revert x Hx. now apply forallb_forall. }
  destruct (rev cur) as [|a l] eqn:E.
  - apply (f_equal (@List.length ascii)) in E. rewrite length_rev in E.
    destruct cur; [contradiction | discriminate].
  - cbn [string_of_list_ascii is_word list_ascii_of_string].
    now rewrite list_ascii_of_string_of_list_ascii.
Qed.

(** Every element of [text.split()] is a word. *)
Lemma split_from_words (s : string) :
  forall cur : list ascii,
    forallb nonspace cur = true ->
    Forall (fun w => is_word w = true) (split_from cur s).
Proof.
  induction s as [|c s IH]; intros cur Hc.
  - destruct cur as [|a cur]; [constructor|].
    constructor; [|constructor]. now apply is_word_flushed.
  - cbn [split_from]. destruct (isspace c) eqn:Ec.
    + destruct cur as [|a cur]; [now apply IH|].
      constructor; [now apply is_word_flushed | now apply IH].
    + apply IH. cbn [forallb]. unfold nonspace at 1. now rewrite Ec, Hc.
Qed.

Lemma split_words (text : string) :
  Forall (fun w => is_word w = true) (split text).
Proof. now apply split_from_words. Qed.

Lemma In_pyslice {A : Type} (l : list A) (i j : Z) (x : A) :
  In x (pyslice l i j) -> In x l.
Proof.
  unfold pyslice. intros H.
  set (m := Z.to_nat (clamp (len l) i)) in *.
  set (n := Z.to_nat (clamp (len l) j - clamp (len l) i)) in *.
  rewrite <- (firstn_skipn m l). apply in_or_app. right.
  rewrite <- (firstn_skipn n (skipn m l)). apply in_or_app. now left.
Qed.

(** A text has no word exactly when it is made of whitespace. *)
Lemma split_from_nil (s : string) :
  forall cur : list ascii,
    split_from cur s = [] <-> cur = [] /\ all_space s = true.
Proof.
  unfold all_space.
  induction s as [|c s IH]; intros cur; cbn [split_from].
  - destruct cur as [|a cur]; simpl.
    + split; [now split | reflexivity].
    + split; [discriminate | intros (H & _); discriminate].
  - cbn [list_ascii_of_string forallb]. destruct (isspace c) eqn:Ec.
    + destruct cur as [|a cur].
      * rewrite IH. simpl. tauto.
      * split; [discriminate|]. intros (H & _). discriminate.
    + rewrite IH. simpl. split; [intros (H & _); discriminate|].
      intros (_ & H). discriminate.
Qed.

(** X5. The text of an emitted chunk splits back into exactly the words
    the chunk was built from, so [word_count] is the number of words of the
    chunk's own text. *)
Theorem chunk_text_splits_back
  (self : PDFProcessor) (text : string) (cs : list Chunk) (c : Chunk) :
  chunk_text self text = Ok cs ->
  In c cs ->
  split (pdf_processor.text c) = chunk_words self text c
  /\ len (split (pdf_processor.text c)) = word_count c.
Proof.
  intros H Hin. apply chunk_text_inv in H. destruct H as (_ & ->).
  apply in_chunks in Hin. destruct Hin as (k & -> & _).
  unfold chunk_words, chunk_at. cbn [pdf_processor.text start_char word_count].
  assert (Hs : split (join " " (pyslice (split text)
                 (Z.of_nat k * stride self)
                 (Z.of_nat k * stride self + chunk_size self)))
               = pyslice (split text) (Z.of_nat k * stride self)
                   (Z.of_nat k * stride self + chunk_size self)).
  { apply split_join. apply Forall_forall. intros w Hw.
    apply In_pyslice in Hw. revert w Hw. apply Forall_forall.
    apply split_words. }
  rewrite Hs. split; reflexivity.
Qed.

Lemma chunk_text_splits_back_witness :
  split "c d e f"
  = chunk_words (cfg 4 2) "  a  b c d   e f g h "
      {| text := "c d e f"; chunk_index := 1; start_char := 2;
         word_count := 4 |}
  /\ len (split "c d e f") = 4.
Proof.
  exact (@chunk_text_splits_back (cfg 4 2) "  a  b c d   e f g h "
           [ {| text := "a b c d"; chunk_index := 0; start_char := 0;
                word_count := 4 |};
             {| text := "c d e f"; chunk_index := 1; start_char := 2;
                word_count := 4 |};
             {| text := "e f g h"; chunk_index := 2; start_char := 4;
                word_count := 4 |};
             {| text := "g h"; chunk_index := 3; start_char := 6;
                word_count := 2 |} ]
           {| text := "c d e f"; chunk_index := 1; start_char := 2;
              word_count := 4 |}
           eq_refl (or_intror (or_introl eq_refl))).
Defined.

(** X6. Chunking sees the words only: replacing every run of whitespace of
    a text by one blank, and dropping the whitespace at both ends, changes
    neither the chunks nor an error. *)
Theorem chunk_text_ignores_spacing (self : PDFProcessor) (text : string) :
  chunk_text self (join " " (split text)) = chunk_text self text.
Proof.
  unfold chunk_text. rewrite (split_join (split_words text)). reflexivity.
Qed.

(** X7. With [chunk_overlap < chunk_size], [chunk_text] returns no chunk
    exactly when the text consists of whitespace only (or is empty). *)
Theorem no_chunks_iff_whitespace (self : PDFProcessor) (text : string) :
  chunk_overlap self < chunk_size self ->
  exists cs : list Chunk,
    chunk_text self text = Ok cs
    /\ (cs = [] <-> all_space text = true).
Proof.
  intros Hv. assert (Hs : 0 < stride self) by (unfold stride; lia).
  eexists. split; [apply chunk_text_closed; lia|].
  pose proof (split_from_nil text []) as Hnil. fold (split text) in Hnil.
  pose proof (len_nonneg (split text)) as Hn. fold (word_total text) in Hn.
  split.
  - intros E. apply (f_equal (@List.length Chunk)) in E.
    rewrite length_map, length_seq in E. cbn [List.length] in E.
    apply Hnil. destruct (Z.eq_dec (word_total text) 0) as [E0|E0].
    + unfold word_total, len in E0. destruct (split text); [auto|].
      simpl in E0. lia.
    + destruct (@range_length_bounds (word_total text) (stride self))
        as (H1 & _); [lia | lia |]. fold (n_chunks self text) in H1. lia.
  - intros Ha. assert (E : split text = []) by (apply Hnil; auto).
    unfold n_chunks, word_total. rewrite E. cbn [List.length len Z.of_nat].
    rewrite range_length_empty by lia. reflexivity.
Qed.

Lemma no_chunks_iff_whitespace_witness :
  exists cs : list Chunk,
    chunk_text (cfg 1000 200) "   " = Ok cs /\ cs = [].
Proof.
  destruct (no_chunks_iff_whitespace (cfg 1000 200) "   ") as (cs & H & Hi).
  - simpl. lia.
  - exists cs. split; [exact H|]. apply Hi. reflexivity.
Defined.

(** X8. A document whose text is whitespace only is processed without
    error whenever [chunk_size <> chunk_overlap]: the record has no chunk and
    [total_chunks = 0], while [total_chars] still counts every whitespace
    character. *)
Theorem whitespace_document_has_no_chunks
  (fitz_open : string -> result FitzDoc)
  (pdfplumber_open : string -> result PlumberPdf)
  (self : PDFProcessor) (pdf_path text : string) :
  chunk_size self <> chunk_overlap self ->
  all_space text = true ->
  snd (extract fitz_open pdfplumber_open self pdf_path) = Ok text ->
  snd (process_pdf fitz_open pdfplumber_open self pdf_path)
  = Ok {| filename := basename pdf_path;
          full_text := text;
          chunks := [];
          total_chunks := 0;
          total_chars := str_len text |}.
Proof.
  intros Hne Ha He. rewrite process_pdf_after_extract, He. cbn [snd bind].
  assert (Hs : stride self <> 0) by (unfold stride; lia).
  rewrite chunk_text_closed by assumption.
  assert (E : split text = []) by (apply (split_from_nil text []); auto).
  assert (Hn : n_chunks self text = 0%nat).
  { unfold n_chunks, word_total. rewrite E. cbn [List.length len Z.of_nat].
    destruct (Z_lt_le_dec 0 (stride self)).
    - apply range_length_empty; lia.
    - apply range_length_backwards; lia. }
  rewrite Hn. reflexivity.
Qed.

Lemma whitespace_document_has_no_chunks_witness :
  snd (process_pdf fitz_whitespace plumber_broken (cfg 1000 200) "scan.pdf")
  = Ok {| filename := "scan.pdf";
          full_text := String " " (String " " (String "010" " "));
          chunks := [];
          total_chunks := 0;
          total_chars := 4 |}.
Proof.
  apply (@whitespace_document_has_no_chunks fitz_whitespace plumber_broken
           (cfg 1000 200) "scan.pdf").
  - simpl. lia.
  - vm_compute. reflexivity.
  - vm_compute. reflexivity.
Defined.

(** ** Extraction *)

Lemma concat_empty_cons (t : string) (ts : list string) :
  String.concat "" (t :: ts) = (t ++ String.concat "" ts)%string.
Proof.
  destruct ts as [|t' ts]; simpl; [now rewrite append_nil_r | reflexivity].
Qed.

Lemma read_fitz_pages_all (ts : list string) :
  forall acc : string,
    read_fitz_pages (map (@Ok exn string) ts) acc
    = Ok (acc ++ String.concat "" ts)%string.
Proof.
  induction ts as [|t ts IH]; intros acc.
  - simpl. now rewrite append_nil_r.
  - cbn [map read_fitz_pages]. rewrite IH, concat_empty_cons.
    now rewrite append_assoc.
Qed.

Lemma read_fitz_pages_fail (ts : list string) (e : exn)
  (rest : list (result string)) :
  forall acc : string,
    read_fitz_pages (map (@Ok exn string) ts ++ Raise e :: rest) acc
    = Raise e.
Proof.
  induction ts as [|t ts IH]; intros acc; [reflexivity|].
  cbn [map app read_fitz_pages]. apply IH.
Qed.

Lemma read_plumber_pages_all (os : list (option string)) :
  forall acc : string,
    read_plumber_pages (map (@Ok exn (option string)) os) acc
    = Ok (acc ++ String.concat "" (map page_text os))%string.
Proof.
  induction os as [|o os IH]; intros acc.
  - simpl. now rewrite append_nil_r.
  - cbn [map]. rewrite concat_empty_cons, <- append_assoc.
    destruct o as [t|]; cbn [read_plumber_pages page_text]; apply IH.
Qed.

(** X9. When PyMuPDF opens the document, reads every page and closes it,
    [extract_text_pymupdf] returns the page texts concatenated in page
    order, with nothing between them. *)
Theorem pymupdf_concatenates_pages
  (fitz_open : string -> result FitzDoc)
  (self : PDFProcessor) (pdf_path : string)
  (doc : FitzDoc) (ts : list string) (u : unit) :
  fitz_open pdf_path = Ok doc ->
  fz_pages doc = map (@Ok exn string) ts ->
  fz_close doc = Ok u ->
  snd (extract_text_pymupdf fitz_open self pdf_path)
  = Ok (String.concat "" ts).
Proof.
  intros Ho Hp Hc. unfold extract_text_pymupdf. cbn [snd].
  rewrite Ho. cbn [bind]. rewrite Hp, read_fitz_pages_all. cbn [bind].
  rewrite Hc. reflexivity.
Qed.

Lemma pymupdf_concatenates_pages_witness :
  snd (extract_text_pymupdf fitz_two_pages (cfg 4 2) "doc.pdf")
  = Ok "a b c d e f g h".
Proof.
  exact (@pymupdf_concatenates_pages fitz_two_pages (cfg 4 2) "doc.pdf"
           {| fz_pages := [Ok "a b c d "; Ok "e f g h"]; fz_close := Ok tt |}
           ["a b c d "; "e f g h"] tt eq_refl eq_refl eq_refl).
Defined.

(** X10. When a page cannot be read, [extract_text_pymupdf] returns no
    partial text: it raises the error of the first failing page, wrapped as
    [Exception("Error extracting text with PyMuPDF: ...")] when that error
    derives from [Exception] and unchanged otherwise, whatever the later
    pages and [close] would do. *)
Theorem pymupdf_first_failing_page
  (fitz_open : string -> result FitzDoc)
  (self : PDFProcessor) (pdf_path : string)
  (doc : FitzDoc) (ts : list string) (e : exn)
  (rest : list (result string)) :
  fitz_open pdf_path = Ok doc ->
  fz_pages doc = map (@Ok exn string) ts ++ Raise e :: rest ->
  snd (extract_text_pymupdf fitz_open self pdf_path)
  = if is_Exception e
    then Raise (Exception (pymupdf_prefix ++ str e))
    else Raise e.
Proof.
  intros Ho Hp. unfold extract_text_pymupdf. cbn [snd].
  rewrite Ho. cbn [bind]. rewrite Hp, read_fitz_pages_fail. reflexivity.
Qed.

Lemma pymupdf_first_failing_page_witness :
  snd (extract_text_pymupdf fitz_bad_page (cfg 4 2) "doc.pdf")
  = Raise (Exception "Error extracting text with PyMuPDF: bad xref").
Proof.
  exact (@pymupdf_first_failing_page fitz_bad_page (cfg 4 2) "doc.pdf"
           {| fz_pages := [Ok "a b "; Raise (Foreign true "bad xref");
                           Ok "c"];
              fz_close := Ok tt |}
           ["a b "] (Foreign true "bad xref") [Ok "c"] eq_refl eq_refl).
Defined.

(** X11. When pdfplumber opens the document, reads every page and leaves
    the [with] block, [extract_text_pdfplumber] returns the page texts
    concatenated in page order, a page without text counting as the empty
    string. *)
Theorem pdfplumber_concatenates_pages
  (pdfplumber_open : string -> result PlumberPdf)
  (self : PDFProcessor) (pdf_path : string)
  (pdf : PlumberPdf) (os : list (option string)) (u : unit) :
  pdfplumber_open pdf_path = Ok pdf ->
  pl_pages pdf = map (@Ok exn (option string)) os ->
  pl_exit pdf = Ok u ->
  snd (extract_text_pdfplumber pdfplumber_open self pdf_path)
  = Ok (String.concat "" (map page_text os)).
Proof.
  intros Ho Hp Hx. unfold extract_text_pdfplumber. cbn [snd].
  rewrite Ho. cbn [bind]. rewrite Hp, Hx, read_plumber_pages_all.
  reflexivity.
Qed.

Lemma pdfplumber_concatenates_pages_witness :
  snd (extract_text_pdfplumber plumber_two_pages (cfg 4 2) "doc.pdf")
  = Ok "a b c d e f g h".
Proof.
  exact (@pdfplumber_concatenates_pages plumber_two_pages (cfg 4 2) "doc.pdf"
           {| pl_pages := [Ok (Some "a b c d "); Ok None;
                           Ok (Some "e f g h")];
              pl_exit := Ok tt |}
           [Some "a b c d "; None; Some "e f g h"] tt
           eq_refl eq_refl eq_refl).
Defined.




(** X13. When the primary library raises and the fallback returns a text,
    [process_pdf] succeeds on the fallback's text (for
    [chunk_size <> chunk_overlap]): the record carries that text and its
    chunks, and nothing of the primary's error. *)
Theorem fallback_text_is_processed
  (fitz_open : string -> result FitzDoc)
  (pdfplumber_open : string -> result PlumberPdf)
  (self : PDFProcessor) (pdf_path t : string) (e : exn) :
  chunk_size self <> chunk_overlap self ->
  snd (extract_text_pymupdf fitz_open self pdf_path) = Raise e ->
  snd (extract_text_pdfplumber pdfplumber_open self pdf_path) = Ok t ->
  exists cs : list Chunk,
    chunk_text self t = Ok cs
    /\ snd (process_pdf fitz_open pdfplumber_open self pdf_path)
       = Ok {| filename := basename pdf_path;
               full_text := t;
               chunks := cs;
               total_chunks := len cs;
               total_chars := str_len t |}.
Proof.
  intros Hne Hp Hf. assert (Hs : stride self <> 0) by (unfold stride; lia).
  eexists. split; [apply chunk_text_closed; assumption|].
  rewrite process_pdf_after_extract.
  rewrite (extract_primary_raises _ pdfplumber_open _ _ Hp). cbn [snd].
  rewrite Hf. cbn [bind]. rewrite chunk_text_closed by assumption.
  reflexivity.
Qed.

Lemma fallback_text_is_processed_witness :
  exists cs : list Chunk,
    chunk_text (cfg 4 2) "a b c d e f g h" = Ok cs
    /\ snd (process_pdf fitz_bad_page plumber_two_pages (cfg 4 2) "/d/x.pdf")
       = Ok {| filename := "x.pdf";
               full_text := "a b c d e f g h";
               chunks := cs;
               total_chunks := len cs;
               total_chars := 15 |}.
Proof.
  apply (@fallback_text_is_processed fitz_bad_page plumber_two_pages
           (cfg 4 2) "/d/x.pdf" "a b c d e f g h"
           (Exception "Error extracting text with PyMuPDF: bad xref")).
  - simpl. lia.
  - reflexivity.
  - reflexivity.
Defined.

(** X14. A processor with [chunk_size = chunk_overlap] never returns a
    record: the PDF libraries are opened and the text is extracted first,
    and when extraction succeeds the call ends in the [ValueError] of the
    loop header. *)
Theorem zero_stride_never_returns
  (fitz_open : string -> result FitzDoc)
  (pdfplumber_open : string -> result PlumberPdf)
  (self : PDFProcessor) (pdf_path : string) :
  chunk_size self = chunk_overlap self ->
  hd_error (fst (process_pdf fitz_open pdfplumber_open self pdf_path))
  = Some (FitzOpen pdf_path)
  /\ (forall r : ProcessingResult,
        snd (process_pdf fitz_open pdfplumber_open self pdf_path) <> Ok r)
  /\ (forall t : string,
        snd (extract fitz_open pdfplumber_open self pdf_path) = Ok t ->
        snd (process_pdf fitz_open pdfplumber_open self pdf_path)
        = Raise (ValueError "range() arg 3 must not be zero")).
Proof.
  intros Heq. assert (Hs : stride self = 0) by (unfold stride; lia).
  rewrite process_pdf_after_extract. cbn [fst snd].
  split; [|split].
  - unfold extract, extract_text_pymupdf.
    destruct (rewrap _ _); [reflexivity|].
    destruct (extract_text_pdfplumber _ _ _). reflexivity.
  - intros r.
    destruct (snd (extract fitz_open pdfplumber_open self pdf_path))
      as [t|e]; cbn [bind]; [|discriminate].
    rewrite chunk_text_zero_stride by assumption. discriminate.
  - intros t ->. cbn [bind].
    rewrite chunk_text_zero_stride by assumption. reflexivity.
Qed.

Lemma zero_stride_never_returns_witness :
  snd (process_pdf fitz_two_pages plumber_two_pages (cfg 7 7) "doc.pdf")
  = Raise (ValueError "range() arg 3 must not be zero").
Proof.
  destruct (@zero_stride_never_returns fitz_two_pages plumber_two_pages
              (cfg 7 7) "doc.pdf" eq_refl) as (_ & _ & H).
  exact (H "a b c d e f g h" eq_refl).
Defined.

(** ** The file name of the record *)

Lemma string_of_list_ascii_app (l1 l2 : list ascii) :
  string_of_list_ascii (l1 ++ l2)
  = (string_of_list_ascii l1 ++ string_of_list_ascii l2)%string.
Proof. induction l1 as [|a l1 IH]; simpl; [reflexivity | now rewrite IH]. Qed.

Lemma existsb_rev_false {A : Type} (f : A -> bool) (l : list A) :
  existsb f l = false -> existsb f (rev l) = false.
Proof.
  intros H. destruct (existsb f (rev l)) eqn:E; [|reflexivity].
  apply existsb_exists in E. destruct E as (x & Hx & Hf).
  apply in_rev in Hx. rewrite <- H. symmetry. apply existsb_exists.
  now exists x.
Qed.

Lemma basename_from_spec (p : string) :
  forall cur : list ascii,
    existsb (Ascii.eqb "/"%char) cur = false ->
    has_slash (basename_from cur p) = false
    /\ exists dir : string,
         (string_of_list_ascii (rev cur) ++ p)%string
         = (dir ++ basename_from cur p)%string.
Proof.
  induction p as [|c p IH]; intros cur Hcur; cbn [basename_from].
  - split.
    + unfold has_slash. rewrite list_ascii_of_string_of_list_ascii.
      now apply existsb_rev_false.
    + exists "". now rewrite append_nil_r.
  - destruct (Ascii.eqb c "/") eqn:Ec.
    + destruct (IH [] eq_refl) as (Hs & dir & Hd). split; [exact Hs|].
      exists (string_of_list_ascii (rev cur) ++ String c dir)%string.
      rewrite append_assoc. cbn [append]. simpl in Hd. now rewrite <- Hd.
    + assert (Hc : existsb (Ascii.eqb "/"%char) (c :: cur) = false).
      { cbn [existsb]. rewrite Ascii.eqb_sym, Ec. exact Hcur. }
      destruct (IH (c :: cur) Hc) as (Hs & dir & Hd). split; [exact Hs|].
      exists dir. rewrite <- Hd. cbn [rev].
      rewrite string_of_list_ascii_app, append_assoc. reflexivity.
Qed.

(** X15. The [filename] of a returned record is the last component of the
    path: it contains no slash, and the path is a directory prefix followed
    by it. *)
Theorem filename_is_last_component
  (fitz_open : string -> result FitzDoc)
  (pdfplumber_open : string -> result PlumberPdf)
  (self : PDFProcessor) (pdf_path : string) (r : ProcessingResult) :
  snd (process_pdf fitz_open pdfplumber_open self pdf_path) = Ok r ->
  has_slash (filename r) = false
  /\ exists dir : string, pdf_path = (dir ++ filename r)%string.
Proof.
  rewrite process_pdf_after_extract. cbn [snd]. intros H.
  destruct (snd (extract fitz_open pdfplumber_open self pdf_path))
    as [t|e]; [|discriminate].
  cbn [bind] in H. destruct (chunk_text self t) as [cs|e]; [|discriminate].
  cbn [bind] in H. injection H as <-. cbn [filename].
  exact (basename_from_spec pdf_path [] eq_refl).
Qed.

Lemma filename_is_last_component_witness :
  has_slash "report.pdf" = false
  /\ exists dir : string, "/srv/in/report.pdf" = (dir ++ "report.pdf")%string.
Proof.
  exact (@filename_is_last_component fitz_blank plumber_broken (cfg 4 2)
           "/srv/in/report.pdf"
           {| filename := "report.pdf"; full_text := ""; chunks := [];
              total_chunks := 0; total_chars := 0 |} eq_refl).
Defined.

(** X16. The start offset of a chunk is its index times the stride, and
    the indices run below the number of chunks. *)
Theorem start_is_index_times_stride
  (self : PDFProcessor) (text : string) (cs : list Chunk) (c : Chunk) :
  chunk_text self text = Ok cs ->
  In c cs ->
  start_char c = chunk_index c * stride self
  /\ 0 <= chunk_index c < len cs.
Proof.
  intros H Hin. apply chunk_text_inv in H. destruct H as (_ & ->).
  apply in_map_iff in Hin. destruct Hin as (k & <- & Hk).
  apply in_seq in Hk. unfold chunk_at, len.
  cbn [start_char chunk_index]. rewrite length_map, length_seq.
  split; [reflexivity | lia].
Qed.

Lemma start_is_index_times_stride_witness :
  start_char {| text := "e f g h"; chunk_index := 2; start_char := 4;
                word_count := 4 |}
  = 2 * stride (cfg 4 2).
Proof.
  destruct (@start_is_index_times_stride (cfg 4 2) "a b c d e f g h"
              [ {| text := "a b c d"; chunk_index := 0; start_char := 0;
                   word_count := 4 |};
                {| text := "c d e f"; chunk_index := 1; start_char := 2;
                   word_count := 4 |};
                {| text := "e f g h"; chunk_index := 2; start_char := 4;
                   word_count := 4 |};
                {| text := "g h"; chunk_index := 3; start_char := 6;
                   word_count := 2 |} ]
              {| text := "e f g h"; chunk_index := 2; start_char := 4;
                 word_count := 4 |}
              eq_refl (or_intror (or_intror (or_introl eq_refl))))
    as (H & _).
  exact H.
Defined.

(** ** The upload handler: which names pass *)

Lemma substring_skip (p t : string) (m : nat) :
  substring (String.length p) m (p ++ t) = substring 0 m t.
Proof. induction p as [|c p IH]; [reflexivity | exact IH]. Qed.

Lemma substring_all (t : string) : substring 0 (String.length t) t = t.
Proof. induction t as [|c t IH]; simpl; [reflexivity | now rewrite IH]. Qed.

Lemma substring_split (s : string) :
  forall k : nat,
    (k <= String.length s)%nat ->
    s = (substring 0 k s ++ substring k (String.length s - k) s)%string.
Proof.
  induction s as [|c s IH]; intros k Hk.
  - simpl in Hk. replace k with 0%nat by lia. reflexivity.
  - destruct k as [|k].
    + cbn [substring append]. rewrite Nat.sub_0_r.
      change (String.length (String c s)) with (S (String.length s)).
      cbn [substring]. now rewrite substring_all.
    + simpl in Hk. cbn [substring append String.length Nat.sub].
      f_equal. apply IH. lia.
Qed.

(** [s.endswith(suffix)] holds exactly when [s] is some prefix followed by
    [suffix]. *)
Lemma endswith_spec (s suffix : string) :
  endswith s suffix = true <-> exists p : string, s = (p ++ suffix)%string.
Proof.
  unfold endswith. split.
  - intros H. apply andb_true_iff in H. destruct H as (Hle & Heq).
    apply Nat.leb_le in Hle. apply String.eqb_eq in Heq.
    exists (substring 0 (String.length s - String.length suffix) s).
    pose proof (@substring_split s (String.length s - String.length suffix)
                  ltac:(lia)) as Hsp.
    replace (String.length s - (String.length s - String.length suffix))%nat
      with (String.length suffix) in Hsp by lia.
    rewrite Heq in Hsp. exact Hsp.
  - intros (p & ->). rewrite length_append. apply andb_true_iff. split.
    + apply Nat.leb_le. lia.
    + replace (String.length p + String.length suffix - String.length suffix)%nat
        with (String.length p) by lia.
      rewrite substring_skip, substring_all. apply String.eqb_refl.
Qed.

(** X17. [upload_pdf] returns a response exactly when the file name is
    some stem followed by the lower-case ".pdf"; the response then echoes
    the file name and the user id and reports the status "processed". *)
Theorem upload_accepts_pdf_names
  (HTTPException_str : Z -> string -> string)
  (file : app.UploadFile) (user_id : string) (r : app.UploadResponse) :
  app.upload_pdf HTTPException_str file user_id = Ok r
  <-> exists stem : string,
        app.filename file = Some (stem ++ ".pdf")%string
        /\ r = {| app.message := "PDF uploaded successfully";
                  app.resp_filename := (stem ++ ".pdf")%string;
                  app.user_id := user_id;
                  app.status := "processed" |}.
Proof.
  unfold app.upload_pdf, app.upload_pdf_try. split.
  - destruct (app.filename file) as [name|]; [|discriminate].
    destruct (endswith name ".pdf") eqn:E; cbn [negb]; [|discriminate].
    intros H. injection H as <-.
    apply endswith_spec in E. destruct E as (stem & ->).
    exists stem. split; reflexivity.
  - intros (stem & -> & ->).
    assert (E : endswith (stem ++ ".pdf") ".pdf" = true)
      by (apply endswith_spec; now exists stem).
    rewrite E. reflexivity.
Qed.

Lemma upload_accepts_pdf_names_witness :
  app.upload_pdf (fun (code : Z) (detail : string) => detail)
    {| app.filename := Some "report.pdf" |} "u1"
  = Ok {| app.message := "PDF uploaded successfully";
          app.resp_filename := "report.pdf";
          app.user_id := "u1";
          app.status := "processed" |}.
Proof.
  apply (proj2 (@upload_accepts_pdf_names
                  (fun (code : Z) (detail : string) => detail)
                  {| app.filename := Some "report.pdf" |} "u1" _)).
  exists "report". split; reflexivity.
Defined.

(** X18. Whatever goes wrong in [upload_pdf], the caller sees an
    [HTTPException] with status 500 and no other error; for an upload without
    a file name the detail is the message of the [AttributeError]. *)
Theorem upload_failures_are_500
  (HTTPException_str : Z -> string -> string)
  (file : app.UploadFile) (user_id : string) (e : app.exn) :
  app.upload_pdf HTTPException_str file user_id = Raise e ->
  exists detail : string,
    e = app.HTTPException 500 detail
    /\ (app.filename file = None ->
        detail = "'NoneType' object has no attribute 'endswith'").
Proof.
  unfold app.upload_pdf, app.upload_pdf_try.
  destruct (app.filename file) as [name|].
  - destruct (endswith name ".pdf"); cbn [negb]; [discriminate|].
    intros H. injection H as <-. eexists. split; [reflexivity|].
    discriminate.
  - intros H. injection H as <-. eexists. split; reflexivity.
Qed.

Lemma upload_failures_are_500_witness :
  exists detail : string,
    app.HTTPException 500 "'NoneType' object has no attribute 'endswith'"
    = app.HTTPException 500 detail
    /\ detail = "'NoneType' object has no attribute 'endswith'".
Proof.
  destruct (@upload_failures_are_500
              (fun (code : Z) (detail : string) => detail)
              {| app.filename := None |} "u1"
              (app.HTTPException 500
                 "'NoneType' object has no attribute 'endswith'")
              eq_refl) as (detail & H & Hd).
  exists detail. split; [exact H | exact (Hd eq_refl)].
Defined.
